(** * dlls/opencl/extensions.h: the OpenCL extension registry

    The header declares [struct extension_info], the extern resolver
    [cl_khr_d3d10_sharing_get_function] and the static table
    [known_extensions].  This file embeds those three declarations and the
    two operations the specification describes over them, and proves the
    specification's claims about them. *)

From Stdlib Require Import String List Bool PArith Lia.
Import ListNotations.
Local Open Scope string_scope.

(** ** Outcomes and the state-and-fault monad *)

(** A C computation either returns a value or has undefined behaviour by
    reading through a null pointer or calling through a null function
    pointer; the latter is [Fault]. *)
Inductive outcome (A : Type) : Type :=
| Done (a : A)
| Fault.
Arguments Done {A} a.
Arguments Fault {A}.

(** The value a stateful computation returns, the final state dropped. *)
Definition value_of {A S : Type} (o : outcome (A * S)) : outcome A :=
  match o with
  | Done (a, _) => Done a
  | Fault => Fault
  end.

Module OpenCL.

Section Extensions.

(** The state of everything outside this header (the Direct3D interop
    layer the resolver lives in).  The header never looks inside it. *)
Variable World : Type.

(** [const char *]: [None] is the null pointer, [Some s] points to the
    NUL-terminated string whose characters are [s]. *)
Definition const_char_ptr : Type := option string.

(** [void *] as the resolvers return it: [None] is the null pointer,
    [Some a] the address [a] of an entry point. *)
Definition void_ptr : Type := option positive.

(** What a non-null [get_function] member points to: a function, defined
    outside the header, that takes a [const char] pointer (the symbol
    name) and returns a [void] pointer, and which may read and change the
    outside world. *)
Definition get_function_t : Type :=
  const_char_ptr -> World -> void_ptr * World.

(** [struct extension_info]: the member [name], a pointer to [const
    char], and the member [get_function], a pointer to a function.  Both
    are pointers, hence nullable. *)
Record extension_info : Type := {
  name : const_char_ptr;
  get_function : option get_function_t
}.

(** The function [cl_khr_d3d10_sharing_get_function]: declared in the
    header, defined elsewhere. *)
Variable cl_khr_d3d10_sharing_get_function : get_function_t.

(** [static struct extension_info known_extensions[]], initialised with
    the single row [{"cl_khr_d3d10_sharing",
    cl_khr_d3d10_sharing_get_function}]. *)
Definition known_extensions : list extension_info :=
  [ {| name := Some "cl_khr_d3d10_sharing";
       get_function := Some cl_khr_d3d10_sharing_get_function |} ].

(** *** Program state *)

(** The table is a [static] array that is not [const]: it lives in
    writable memory, so it is part of the state.  [table] is that array,
    [world] everything else. *)
Record state : Type := {
  table : list extension_info;
  world : World
}.

(** The state right after load time: the array holds its initialiser. *)
Definition initial_state (w : World) : state :=
  {| table := known_extensions; world := w |}.

Definition M (A : Type) : Type := state -> outcome (A * state).

Definition ret {A : Type} (a : A) : M A := fun s => Done (a, s).

Definition bind {A B : Type} (m : M A) (k : A -> M B) : M B :=
  fun s => match m s with
           | Done (a, s') => k a s'
           | Fault => Fault
           end.

Definition lift {A : Type} (o : outcome A) : M A :=
  fun s => match o with
           | Done a => Done (a, s)
           | Fault => Fault
           end.

(** Reading the array. *)
Definition read_table : M (list extension_info) :=
  fun s => Done (table s, s).

(** A call of a function defined outside the header.  The callee is given
    [world] alone.  That it leaves the array alone is an assumption of this
    model, not a fact of the header: the array is not [const], and C lets a
    callee compiled in the same translation unit store to it.  What is
    said below about the table after a call holds under this assumption. *)
Definition call_extern {A : Type} (f : World -> A * World) : M A :=
  fun s => let (a, w') := f (world s) in
           Done (a, {| table := table s; world := w' |}).

Notation "x <- m ;; k" := (bind m (fun x => k))
  (at level 61, m at next level, right associativity).

(** *** The two operations *)

(** The table walk of [find_extension]: entries in array order, the first
    whose name compares equal wins.  The comparison reads the entry's
    name, so a null name is a fault. *)
Fixpoint scan (tbl : list extension_info) (nm : string)
  : outcome (option extension_info) :=
  match tbl with
  | [] => Done None
  | e :: rest =>
      match name e with
      | None => Fault
      | Some n => if String.eqb n nm then Done (Some e) else scan rest nm
      end
  end.

(** Modelled from the spec: [find_extension] is not defined in
    extensions.h.  Spec 4.1: the matching entry if the argument equals
    some registered entry's name (exact, case-sensitive match), otherwise
    not found ([None]); no side effects. *)
Definition find_extension (nm : string) : M (option extension_info) :=
  tbl <- read_table ;; lift (scan tbl nm).

(** Modelled from the spec: [resolve_function] is not defined in
    extensions.h.  Spec 4.1: delegates to the entry's resolver applied to
    the symbol name.  The call goes through the [get_function] member, so
    a null member is a fault. *)
Definition resolve_function (e : extension_info) (symbol_name : string)
  : M void_ptr :=
  match get_function e with
  | None => lift Fault
  | Some f => call_extern (f (Some symbol_name))
  end.

(** An entry as the specification's data model has it: its resolver
    refers to a function. *)
Definition has_resolver (e : extension_info) : bool :=
  match get_function e with Some _ => true | None => false end.

Definition has_name (e : extension_info) : bool :=
  match name e with Some _ => true | None => false end.

End Extensions.

Arguments name {World} e.
Arguments get_function {World} e.
Arguments Build_extension_info {World} name get_function.
Arguments known_extensions {World} cl_khr_d3d10_sharing_get_function.
Arguments table {World} s.
Arguments world {World} s.
Arguments Build_state {World} table world.
Arguments initial_state {World} cl_khr_d3d10_sharing_get_function w.
Arguments ret {World A} a s.
Arguments bind {World A B} m k s.
Arguments lift {World A} o s.
Arguments read_table {World} s.
Arguments call_extern {World A} f s.
Arguments scan {World} tbl nm.
Arguments find_extension {World} nm s.
Arguments resolve_function {World} e symbol_name s.
Arguments has_resolver {World} e.
Arguments has_name {World} e.

(** *** A stand-in for the extern *)

(** The body of [cl_khr_d3d10_sharing_get_function] is outside the header.
    To run the model on concrete inputs this stand-in takes its place: it
    knows one entry point of the extension, and its world is the number of
    calls it has served. *)
Definition d3d10_stub : get_function_t nat :=
  fun sym calls =>
    match sym with
    | Some s =>
        if String.eqb s "clGetDeviceIDsFromD3D10KHR"
        then (Some 4096%positive, S calls)
        else (None, S calls)
    | None => (None, S calls)
    end.

(** The row of the table when the stand-in is linked in. *)
Definition stub_entry : extension_info nat :=
  {| name := Some "cl_khr_d3d10_sharing"; get_function := Some d3d10_stub |}.


(** ** Properties *)

(** *** The table walk, over any table *)

Section ScanFacts.

Context {World : Type}.
Implicit Types (tbl : list (extension_info World)).
Implicit Types (e : extension_info World) (nm : string).

Lemma has_name_true e : has_name e = true <-> name e <> None.
Proof.
  unfold has_name. destruct (name e); split; congruence.
Qed.

Lemma has_resolver_true e :
  has_resolver e = true <-> get_function e <> None.
Proof.
  unfold has_resolver. destruct (get_function e); split; congruence.
Qed.

(** An entry the walk returns is in the table and bears the name. *)
Lemma scan_found tbl nm e :
  scan tbl nm = Done (Some e) -> In e tbl /\ name e = Some nm.
Proof.
  induction tbl as [|a rest IH]; simpl; [discriminate|].
  destruct (name a) as [n|] eqn:Hn; [|discriminate].
  destruct (String.eqb_spec n nm) as [->|Hne]; intros H.
  - injection H as <-. auto.
  - destruct (IH H); auto.
Qed.

(** A walk that finds nothing has seen every name differ. *)
Lemma scan_not_found tbl nm :
  scan tbl nm = Done None -> ~ In (Some nm) (map name tbl).
Proof.
  induction tbl as [|a rest IH]; simpl; [tauto|].
  destruct (name a) as [n|] eqn:Hn; [|discriminate].
  destruct (String.eqb_spec n nm) as [->|Hne]; [discriminate|].
  intros H [Heq|Hin]; [congruence | exact (IH H Hin)].
Qed.

(** Over a table without null names the walk never faults. *)
Lemma scan_total tbl nm :
  forallb has_name tbl = true -> exists r, scan tbl nm = Done r.
Proof.
  induction tbl as [|a rest IH]; simpl; [eauto|].
  intros [Ha Hrest]%andb_prop. unfold has_name in Ha.
  destruct (name a) as [n|]; [|discriminate].
  destruct (String.eqb n nm); eauto.
Qed.

Lemma scan_absent tbl nm :
  forallb has_name tbl = true ->
  ~ In (Some nm) (map name tbl) ->
  scan tbl nm = Done None.
Proof.
  intros Hnames Hout.
  destruct (scan_total tbl nm Hnames) as [[e|] Hr]; [|exact Hr].
  destruct (scan_found _ _ _ Hr) as [Hin Hname].
  exfalso. apply Hout. rewrite <- Hname. now apply in_map.
Qed.

(** When names are unique the walk returns the one entry of that name. *)
Lemma scan_present tbl nm e :
  forallb has_name tbl = true ->
  NoDup (map name tbl) ->
  In e tbl -> name e = Some nm ->
  scan tbl nm = Done (Some e).
Proof.
  induction tbl as [|a rest IH]; simpl; [tauto|].
  intros [Ha Hrest]%andb_prop Hnd Hin Hname.
  apply NoDup_cons_iff in Hnd as [Hfresh Hnd].
  unfold has_name in Ha.
  destruct (name a) as [n|] eqn:Hn; [|discriminate].
  destruct (String.eqb_spec n nm) as [->|Hne].
  - destruct Hin as [->|Hin]; [reflexivity|].
    exfalso. apply Hfresh. rewrite <- Hname. now apply in_map.
  - destruct Hin as [->|Hin]; [congruence|]. now apply IH.
Qed.

(** A call through a non-null member is the call of its target. *)
Lemma resolve_function_call e (f : get_function_t World) sym s :
  get_function e = Some f ->
  resolve_function e sym s =
  Done (fst (f (Some sym) (world s)),
        {| table := table s; world := snd (f (Some sym) (world s)) |}).
Proof.
  intros Hf. unfold resolve_function, call_extern. rewrite Hf.
  now destruct (f (Some sym) (world s)).
Qed.


End ScanFacts.

(** *** The registry of the header *)

Section Registry.

Context {World : Type}.
Variable cl_khr_d3d10_sharing_get_function : get_function_t World.

Local Abbreviation registry :=
  (known_extensions cl_khr_d3d10_sharing_get_function).
Local Abbreviation boot :=
  (initial_state cl_khr_d3d10_sharing_get_function).

Implicit Types (e : extension_info World) (nm sym : string).
Implicit Types (s : state World) (w : World).

Lemma registry_has_names : forallb has_name registry = true.
Proof. reflexivity. Qed.

Lemma registry_has_resolvers : forallb has_resolver registry = true.
Proof. reflexivity. Qed.

Lemma registry_names :
  map name registry = [Some "cl_khr_d3d10_sharing"].
Proof. reflexivity. Qed.

Lemma registry_names_nodup : NoDup (map name registry).
Proof.
  rewrite registry_names. constructor; [simpl; tauto | constructor].
Qed.

Lemma registry_member e :
  In e registry ->
  e = {| name := Some "cl_khr_d3d10_sharing";
         get_function := Some cl_khr_d3d10_sharing_get_function |}.
Proof. intros [<-|[]]. reflexivity. Qed.

(** Lookup in a state whose table is the registry. *)
Lemma find_extension_boot nm w :
  find_extension nm (boot w) = lift (scan registry nm) (boot w).
Proof. reflexivity. Qed.

Lemma find_extension_hit nm w e :
  In e registry -> name e = Some nm ->
  find_extension nm (boot w) = Done (Some e, boot w).
Proof.
  intros Hin Hname. rewrite find_extension_boot.
  now rewrite (scan_present registry nm e
                 registry_has_names registry_names_nodup Hin Hname).
Qed.

Lemma find_extension_miss nm w :
  ~ In (Some nm) (map name registry) ->
  find_extension nm (boot w) = Done (None, boot w).
Proof.
  intros Hout. rewrite find_extension_boot.
  now rewrite (scan_absent registry nm registry_has_names Hout).
Qed.


Lemma other_name_unregistered nm :
  nm <> "cl_khr_d3d10_sharing" -> ~ In (Some nm) (map name registry).
Proof.
  intros Hne. rewrite registry_names. intros [[= Heq]|[]]. now apply Hne.
Qed.

(** C1: [find_extension] returns an entry exactly when that entry is in the
    registry and its name equals the argument, character for character;
    it finds some entry exactly when the argument is a registered name,
    and returns not-found exactly when it is not.  The names
    "cl_khr_gl_sharing" (unregistered) and "CL_KHR_D3D10_SHARING" (the
    registered name in upper case) are not found. *)
Theorem find_extension_exact_match nm w :
  (forall e, find_extension nm (boot w) = Done (Some e, boot w)
             <-> In e registry /\ name e = Some nm)
  /\ ((exists e, find_extension nm (boot w) = Done (Some e, boot w))
      <-> In (Some nm) (map name registry))
  /\ (find_extension nm (boot w) = Done (None, boot w)
      <-> ~ In (Some nm) (map name registry))
  /\ find_extension "cl_khr_gl_sharing" (boot w) = Done (None, boot w)
  /\ find_extension "CL_KHR_D3D10_SHARING" (boot w) = Done (None, boot w).
Proof.
  assert (Hfound : forall e,
             find_extension nm (boot w) = Done (Some e, boot w)
             <-> In e registry /\ name e = Some nm).
  { intros e. split.
    - rewrite find_extension_boot. unfold lift.
      destruct (scan registry nm) as [r|] eqn:Hscan; [|discriminate].
      intros [= ->]. now apply scan_found.
    - intros [Hin Hname]. now apply find_extension_hit. }
  split; [exact Hfound|]. split; [|split; [|split; reflexivity]].
  - split.
    + intros [e He]. apply Hfound in He as [Hin Hname].
      rewrite <- Hname. now apply in_map.
    + intros Hin. apply in_map_iff in Hin as [e [Hname Hin]].
      exists e. apply Hfound. auto.
  - split; [|apply find_extension_miss].
    rewrite find_extension_boot. unfold lift.
    destruct (scan registry nm) as [r|] eqn:Hscan; [|discriminate].
    intros [= ->]. now apply scan_not_found.
Qed.

(** C2: [find_extension] applied to "cl_khr_d3d10_sharing" returns the
    entry whose name is "cl_khr_d3d10_sharing" and whose resolver is
    [cl_khr_d3d10_sharing_get_function]. *)
Theorem find_extension_d3d10_sharing w :
  find_extension "cl_khr_d3d10_sharing" (boot w) =
  Done (Some {| name := Some "cl_khr_d3d10_sharing";
                get_function := Some cl_khr_d3d10_sharing_get_function |},
        boot w).
Proof. reflexivity. Qed.

(** C3: for every entry of the registry and every symbol name,
    [resolve_function] returns what the entry's resolver returns for that
    symbol name, and changes the state exactly as the resolver does: the
    outside world is the resolver's, the table is untouched. *)
Theorem resolve_function_delegates e sym s :
  In e registry ->
  exists f : get_function_t World,
    get_function e = Some f
    /\ value_of (resolve_function e sym s)
       = Done (fst (f (Some sym) (world s)))
    /\ resolve_function e sym s
       = Done (fst (f (Some sym) (world s)),
               {| table := table s;
                  world := snd (f (Some sym) (world s)) |}).
Proof.
  intros Hin. rewrite (registry_member e Hin). simpl.
  exists cl_khr_d3d10_sharing_get_function.
  rewrite (resolve_function_call _ cl_khr_d3d10_sharing_get_function)
    by reflexivity.
  auto.
Qed.

(** C4: the names in the registry are pairwise distinct: the list of
    names has no duplicate, and two positions of the registry that hold
    equal names are the same position. *)
Theorem known_extensions_names_distinct :
  NoDup (map name (known_extensions cl_khr_d3d10_sharing_get_function))
  /\ (forall i j e1 e2,
        nth_error (known_extensions cl_khr_d3d10_sharing_get_function) i
        = Some e1 ->
        nth_error (known_extensions cl_khr_d3d10_sharing_get_function) j
        = Some e2 ->
        name e1 = name e2 -> i = j).
Proof.
  split; [apply registry_names_nodup|].
  intros i j e1 e2 Hi Hj Heq.
  apply (proj1 (NoDup_nth_error (map name registry)) registry_names_nodup).
  - apply nth_error_Some. rewrite nth_error_map, Hi. discriminate.
  - now rewrite !nth_error_map, Hi, Hj; simpl; rewrite Heq.
Qed.


(** C9: the registry has exactly one entry, whose name is
    "cl_khr_d3d10_sharing"; hence [find_extension] returns not-found on
    every other string. *)
Theorem known_extensions_single_entry :
  length (known_extensions cl_khr_d3d10_sharing_get_function) = 1
  /\ map name (known_extensions cl_khr_d3d10_sharing_get_function)
     = [Some "cl_khr_d3d10_sharing"]
  /\ (forall nm w, nm <> "cl_khr_d3d10_sharing" ->
        find_extension nm (boot w) = Done (None, boot w)).
Proof.
  split; [reflexivity|]. split; [reflexivity|].
  intros nm w Hne. apply find_extension_miss.
  now apply other_name_unregistered.
Qed.

(** C10: every entry of the registry has a non-null name and a non-null
    resolver; the resolver of the sole entry is
    [cl_khr_d3d10_sharing_get_function]; so [resolve_function] on an entry
    of the registry never faults on a null function pointer: it returns. *)
Theorem known_extensions_no_null_members :
  Forall (fun e => name e <> None /\ get_function e <> None)
    (known_extensions cl_khr_d3d10_sharing_get_function)
  /\ map get_function (known_extensions cl_khr_d3d10_sharing_get_function)
     = [Some cl_khr_d3d10_sharing_get_function]
  /\ (forall e sym s, In e registry ->
        resolve_function e sym s <> Fault
        /\ exists p s', resolve_function e sym s = Done (p, s')).
Proof.
  split; [|split; [reflexivity|]].
  - repeat constructor; discriminate.
  - intros e sym s Hin. rewrite (registry_member e Hin).
    rewrite (resolve_function_call _ cl_khr_d3d10_sharing_get_function)
      by reflexivity.
    split; [discriminate | eauto].
Qed.

End Registry.

(** *** The model on concrete inputs *)

Example find_extension_registered :
  find_extension "cl_khr_d3d10_sharing" (initial_state d3d10_stub 0)
  = Done (Some stub_entry, initial_state d3d10_stub 0).
Proof. reflexivity. Qed.

Example find_extension_prefix_is_no_match :
  find_extension "cl_khr_d3d10" (initial_state d3d10_stub 0)
  = Done (None, initial_state d3d10_stub 0).
Proof. reflexivity. Qed.

Example resolve_function_known_symbol :
  resolve_function stub_entry "clGetDeviceIDsFromD3D10KHR"
    (initial_state d3d10_stub 0)
  = Done (Some 4096%positive, initial_state d3d10_stub 1).
Proof. reflexivity. Qed.

Example resolve_function_unknown_symbol :
  resolve_function stub_entry "clCreateFromD3D10BufferKHR"
    (initial_state d3d10_stub 0)
  = Done (None, initial_state d3d10_stub 1).
Proof. reflexivity. Qed.

(** Outside the registry the faults are real: a null resolver, a null
    name met by the walk, and a duplicate name hiding a later row. *)
Example resolve_function_null_resolver :
  resolve_function {| name := Some "cl_khr_gl_sharing"; get_function := None |}
    "clCreateFromGLBuffer" (initial_state d3d10_stub 0)
  = Fault.
Proof. reflexivity. Qed.

Example scan_null_name :
  scan [ {| name := None; get_function := Some d3d10_stub |}; stub_entry ]
    "cl_khr_d3d10_sharing"
  = Fault.
Proof. reflexivity. Qed.

Example scan_duplicate_name :
  scan [ {| name := Some "cl_khr_d3d10_sharing"; get_function := None |};
         stub_entry ]
    "cl_khr_d3d10_sharing"
  = Done (Some {| name := Some "cl_khr_d3d10_sharing";
                  get_function := None |}).
Proof. reflexivity. Qed.

(** *** The claims at concrete inputs *)

Lemma find_extension_exact_match_witness :
  In (Some "cl_khr_d3d10_sharing") (map name (known_extensions d3d10_stub))
  /\ exists e,
       find_extension "cl_khr_d3d10_sharing" (initial_state d3d10_stub 0)
       = Done (Some e, initial_state d3d10_stub 0).
Proof.
  assert (H : In (Some "cl_khr_d3d10_sharing")
                 (map name (known_extensions d3d10_stub)))
    by (left; reflexivity).
  split; [exact H|].
  exact (proj2 (proj1 (proj2
           (find_extension_exact_match d3d10_stub "cl_khr_d3d10_sharing" 0)))
           H).
Defined.

Lemma resolve_function_delegates_witness :
  In stub_entry (known_extensions d3d10_stub)
  /\ exists f : get_function_t nat,
       get_function stub_entry = Some f
       /\ value_of (resolve_function stub_entry "clGetDeviceIDsFromD3D10KHR"
                      (initial_state d3d10_stub 0))
          = Done (fst (f (Some "clGetDeviceIDsFromD3D10KHR") 0))
       /\ resolve_function stub_entry "clGetDeviceIDsFromD3D10KHR"
            (initial_state d3d10_stub 0)
          = Done (fst (f (Some "clGetDeviceIDsFromD3D10KHR") 0),
                  {| table := known_extensions d3d10_stub;
                     world := snd (f (Some "clGetDeviceIDsFromD3D10KHR") 0) |}).
Proof.
  assert (H : In stub_entry (known_extensions d3d10_stub))
    by (left; reflexivity).
  split; [exact H|].
  exact (resolve_function_delegates d3d10_stub stub_entry
           "clGetDeviceIDsFromD3D10KHR" (initial_state d3d10_stub 0) H).
Defined.

Lemma known_extensions_names_distinct_witness :
  nth_error (known_extensions d3d10_stub) 0 = Some stub_entry
  /\ name stub_entry = name stub_entry
  /\ 0 = 0.
Proof.
  split; [reflexivity|]. split; [reflexivity|].
  exact (proj2 (known_extensions_names_distinct d3d10_stub)
           0 0 stub_entry stub_entry eq_refl eq_refl eq_refl).
Defined.



Lemma known_extensions_single_entry_witness :
  "cl_khr_gl_sharing" <> "cl_khr_d3d10_sharing"
  /\ find_extension "cl_khr_gl_sharing" (initial_state d3d10_stub 0)
     = Done (None, initial_state d3d10_stub 0).
Proof.
  assert (H : "cl_khr_gl_sharing" <> "cl_khr_d3d10_sharing")
    by (apply String.eqb_neq; reflexivity).
  split; [exact H|].
  exact (proj2 (proj2 (known_extensions_single_entry d3d10_stub))
           "cl_khr_gl_sharing" 0 H).
Defined.

Lemma known_extensions_no_null_members_witness :
  In stub_entry (known_extensions d3d10_stub)
  /\ resolve_function stub_entry "clGetDeviceIDsFromD3D10KHR"
       (initial_state d3d10_stub 0) <> Fault
  /\ exists p s',
       resolve_function stub_entry "clGetDeviceIDsFromD3D10KHR"
         (initial_state d3d10_stub 0)
       = Done (p, s').
Proof.
  assert (H : In stub_entry (known_extensions d3d10_stub))
    by (left; reflexivity).
  split; [exact H|].
  exact (proj2 (proj2 (known_extensions_no_null_members d3d10_stub))
           stub_entry "clGetDeviceIDsFromD3D10KHR"
           (initial_state d3d10_stub 0) H).
Defined.

End OpenCL.
